(** * RoboPredictor: the day/night predictor of PredictionAlgorithm.cpp

    A shallow embedding of [RoboPredictor::RoboMemory] and of the two member
    functions [predictTimeOfDayOnNextPlanet] and
    [observeAndRecordTimeofdayOnNextPlanet], followed by the properties of
    the predictor.

    Modelling choices.
    - [std::uint64_t] planet identifiers are [N]; the code only compares and
      stores them, so no arithmetic (and no wrap-around) is involved.  Every
      statement below is universal over [N] and therefore covers every
      64-bit identifier.
    - [std::unordered_map] is a [gmap]: lookups are by key equality, the
      functors [pair_hash] and [triple_hash] only choose buckets.  [find]
      is a lookup, [operator[]] inserts a value-initialised element when the
      key is absent, [m[k] = v] overwrites.
    - [int] is a 32-bit signed integer held in [Z].  Signed overflow is
      undefined behaviour in C++; [x++] on [INT_MAX] is modelled as the
      failure of the computation ([None]).
    - [roboMemory_ptr] points to one [RoboMemory] owned by the predictor; the
      member functions are computations in a state-and-failure monad whose
      state is that [RoboMemory]. *)

From stdpp Require Import gmap list fin_maps.

Local Open Scope Z_scope.

(** ** Hash functors

    [std::hash<std::uint64_t>] is implementation-defined; it is a parameter
    [std_hash] of the two functors.  [^] on [std::size_t] is [N.lxor]. *)

(** [pair_hash::operator()] *)
Definition pair_hash (std_hash : N -> N) (pair : N * N) : N :=
  N.lxor (std_hash (fst pair)) (std_hash (snd pair)).

(** [triple_hash::operator()] *)
Definition triple_hash (std_hash : N -> N) (triple : N * N * N) : N :=
  N.lxor (N.lxor (std_hash (fst (fst triple))) (std_hash (snd (fst triple))))
         (std_hash (snd triple)).

(** ** Data model *)

(** [struct TimeStats { int dayCount = 0; int nightCount = 0; }] *)
Record TimeStats : Type := mkTimeStats {
  dayCount : Z;
  nightCount : Z
}.

(** [struct RoboPredictor::RoboMemory] *)
Record RoboMemory : Type := mkRoboMemory {
  planetObservations : gmap N TimeStats;
  planetPairObservations : gmap (N * N) bool;
  planetTripleObservations : gmap (N * N * N) bool;
  lastPlanetID : option N;
  lastLastPlanetID : option N;
  consecutiveDayCount : Z
}.

Definition INT_MAX : Z := 2147483647.

(** A value-initialised [TimeStats], as inserted by [operator[]]. *)
Definition TimeStats_default : TimeStats := mkTimeStats 0 0.

(** Field assignments [roboMemory_ptr->f = v]. *)
Definition set_planetObservations (v : gmap N TimeStats) (m : RoboMemory) : RoboMemory :=
  mkRoboMemory v (planetPairObservations m) (planetTripleObservations m)
    (lastPlanetID m) (lastLastPlanetID m) (consecutiveDayCount m).

Definition set_planetPairObservations (v : gmap (N * N) bool) (m : RoboMemory) : RoboMemory :=
  mkRoboMemory (planetObservations m) v (planetTripleObservations m)
    (lastPlanetID m) (lastLastPlanetID m) (consecutiveDayCount m).

Definition set_planetTripleObservations (v : gmap (N * N * N) bool) (m : RoboMemory) : RoboMemory :=
  mkRoboMemory (planetObservations m) (planetPairObservations m) v
    (lastPlanetID m) (lastLastPlanetID m) (consecutiveDayCount m).

Definition set_lastPlanetID (v : option N) (m : RoboMemory) : RoboMemory :=
  mkRoboMemory (planetObservations m) (planetPairObservations m)
    (planetTripleObservations m) v (lastLastPlanetID m) (consecutiveDayCount m).

Definition set_lastLastPlanetID (v : option N) (m : RoboMemory) : RoboMemory :=
  mkRoboMemory (planetObservations m) (planetPairObservations m)
    (planetTripleObservations m) (lastPlanetID m) v (consecutiveDayCount m).

Definition set_consecutiveDayCount (v : Z) (m : RoboMemory) : RoboMemory :=
  mkRoboMemory (planetObservations m) (planetPairObservations m)
    (planetTripleObservations m) (lastPlanetID m) (lastLastPlanetID m) v.

(** ** The monad of member functions

    A member function reads and writes [*roboMemory_ptr] and either returns
    a value together with the new memory, or has undefined behaviour. *)

Definition Robo (A : Type) : Type := RoboMemory -> option (A * RoboMemory).

#[global] Instance Robo_ret : MRet Robo :=
  fun A (a : A) m => Some (a, m).

#[global] Instance Robo_bind : MBind Robo :=
  fun A B (k : A -> Robo B) (c : Robo A) m =>
    match c m with
    | Some (a, m') => k a m'
    | None => None
    end.

(** Read a field. *)
Definition gets {A : Type} (f : RoboMemory -> A) : Robo A :=
  fun m => Some (f m, m).

(** Write a field. *)
Definition modify (f : RoboMemory -> RoboMemory) : Robo unit :=
  fun m => Some (tt, f m).

(** Undefined behaviour. *)
Definition undefined {A : Type} : Robo A := fun _ => None.

(** [x++] on an [int]: defined only below [INT_MAX]. *)
Definition int_incr (x : Z) : Robo Z :=
  if decide (x < INT_MAX) then mret (x + 1) else undefined.

(** ** RoboPredictor::RoboPredictor

    [new RoboMemory]: empty maps, empty optionals, a zero counter. *)
Definition RoboMemory_new : RoboMemory :=
  mkRoboMemory empty empty empty None None 0.

(** ** RoboPredictor::predictTimeOfDayOnNextPlanet *)
Definition predictTimeOfDayOnNextPlanet
    (nextPlanetID : N) (spaceshipComputerPrediction : bool) : Robo bool :=
  (* Step 1: check the consecutive day count *)
  c ← gets consecutiveDayCount;
  if decide (c >= 2) then mret false else
  (* Step 2: try to get a prediction from the triple record *)
  lastLast ← gets lastLastPlanetID;
  last ← gets lastPlanetID;
  '(hasTriplePrediction, triplePrediction) ←
    match lastLast, last with
    | Some ll, Some l =>
        tripleIt ← gets (fun m => planetTripleObservations m !! (ll, l, nextPlanetID));
        match tripleIt with
        | Some v => mret (true, v)
        | None => mret (false, false)
        end
    | _, _ => mret (false, false)
    end;
  (* Step 3: try to get a prediction from the pair record *)
  last ← gets lastPlanetID;
  '(hasPairPrediction, pairPrediction) ←
    match last with
    | Some l =>
        pairIt ← gets (fun m => planetPairObservations m !! (l, nextPlanetID));
        match pairIt with
        | Some v => mret (true, v)
        | None => mret (false, false)
        end
    | None => mret (false, false)
    end;
  (* Step 4: triple, pair and spaceship predictions agree *)
  if hasTriplePrediction && hasPairPrediction
     && eqb triplePrediction pairPrediction
     && eqb pairPrediction spaceshipComputerPrediction
  then mret spaceshipComputerPrediction else
  (* Step 5: single planet record *)
  it ← gets (fun m => planetObservations m !! nextPlanetID);
  match it with
  | Some stats => mret (bool_decide (dayCount stats > nightCount stats))
  | None =>
      (* Step 6: the spaceship prediction is the default *)
      mret spaceshipComputerPrediction
  end.

(** ** RoboPredictor::observeAndRecordTimeofdayOnNextPlanet *)
Definition observeAndRecordTimeofdayOnNextPlanet
    (nextPlanetID : N) (timeOfDayOnNextPlanet : bool) : Robo unit :=
  (* Update the consecutive day count *)
  (if timeOfDayOnNextPlanet then
     c ← gets consecutiveDayCount;
     c' ← int_incr c;
     modify (set_consecutiveDayCount c')
   else
     modify (set_consecutiveDayCount 0));;
  (* Record the triple pattern if the last two planets exist *)
  lastLast ← gets lastLastPlanetID;
  last ← gets lastPlanetID;
  match lastLast, last with
  | Some ll, Some l =>
      modify (fun m => set_planetTripleObservations
                (<[(ll, l, nextPlanetID) := timeOfDayOnNextPlanet]>
                   (planetTripleObservations m)) m)
  | _, _ => mret tt
  end;;
  (* Record the pair pattern if the last planet exists *)
  last ← gets lastPlanetID;
  match last with
  | Some l =>
      modify (fun m => set_planetPairObservations
                (<[(l, nextPlanetID) := timeOfDayOnNextPlanet]>
                   (planetPairObservations m)) m)
  | None => mret tt
  end;;
  (* Update last visited planet IDs *)
  last ← gets lastPlanetID;
  modify (set_lastLastPlanetID last);;
  modify (set_lastPlanetID (Some nextPlanetID));;
  (* Update single planet record: [operator[]] inserts a default element
     for a new key and yields a reference to the stored element *)
  modify (fun m =>
    match planetObservations m !! nextPlanetID with
    | Some _ => m
    | None => set_planetObservations
                (<[nextPlanetID := TimeStats_default]> (planetObservations m)) m
    end);;
  it ← gets (fun m => planetObservations m !! nextPlanetID);
  match it with
  | None => undefined
  | Some stats =>
      if timeOfDayOnNextPlanet then
        d ← int_incr (dayCount stats);
        modify (fun m => set_planetObservations
                  (<[nextPlanetID := mkTimeStats d (nightCount stats)]>
                     (planetObservations m)) m)
      else
        n ← int_incr (nightCount stats);
        modify (fun m => set_planetObservations
                  (<[nextPlanetID := mkTimeStats (dayCount stats) n]>
                     (planetObservations m)) m)
  end.

(** ** Call sequences

    A caller interleaves the two member functions in any order. *)
Inductive Call : Type :=
  | Predict (nextPlanetID : N) (spaceshipComputerPrediction : bool)
  | Observe (nextPlanetID : N) (timeOfDayOnNextPlanet : bool).

(** One call, its return value dropped. *)
Definition call (c : Call) : Robo unit :=
  match c with
  | Predict id hint => predictTimeOfDayOnNextPlanet id hint;; mret tt
  | Observe id outcome => observeAndRecordTimeofdayOnNextPlanet id outcome
  end.

(** A sequence of calls, first call first. *)
Fixpoint calls (cs : list Call) : Robo unit :=
  match cs with
  | [] => mret tt
  | c :: cs' => call c;; calls cs'
  end.

(** The memories a predictor can be in: those produced from a freshly
    constructed predictor by a sequence of calls with defined behaviour. *)
Definition reachable (m : RoboMemory) : Prop :=
  exists cs, calls cs RoboMemory_new = Some (tt, m).

(** ** Vocabulary of the statements *)

(** The tally the single-planet map holds for a planet; a planet without a
    record has the tally [operator[]] would create for it. *)
Definition tally (m : RoboMemory) (id : N) : TimeStats :=
  default TimeStats_default (planetObservations m !! id).

(** One more day, or one more night. *)
Definition count_outcome (outcome : bool) (t : TimeStats) : TimeStats :=
  if outcome then mkTimeStats (dayCount t + 1) (nightCount t)
  else mkTimeStats (dayCount t) (nightCount t + 1).

(** No [int] that the call increments is at [INT_MAX]. *)
Definition increments_defined (m : RoboMemory) (id : N) (outcome : bool) : Prop :=
  if outcome
  then consecutiveDayCount m < INT_MAX /\ dayCount (tally m id) < INT_MAX
  else nightCount (tally m id) < INT_MAX.

#[global] Instance increments_defined_dec m id outcome :
  Decision (increments_defined m id outcome).
Proof. unfold increments_defined. destruct outcome; apply _. Defined.

(** The triple map after an observation, from the memory before it. *)
Definition triple_after (m : RoboMemory) (id : N) (outcome : bool) : gmap (N * N * N) bool :=
  match lastLastPlanetID m, lastPlanetID m with
  | Some ll, Some l => <[(ll, l, id) := outcome]> (planetTripleObservations m)
  | _, _ => planetTripleObservations m
  end.

(** The pair map after an observation, from the memory before it. *)
Definition pair_after (m : RoboMemory) (id : N) (outcome : bool) : gmap (N * N) bool :=
  match lastPlanetID m with
  | Some l => <[(l, id) := outcome]> (planetPairObservations m)
  | None => planetPairObservations m
  end.

(** Rule 4 of the prediction: both lookups succeed and both stored values
    equal the hint. *)
Definition consensus (m : RoboMemory) (id : N) (hint : bool) : Prop :=
  exists ll l,
    lastLastPlanetID m = Some ll /\ lastPlanetID m = Some l /\
    planetTripleObservations m !! (ll, l, id) = Some hint /\
    planetPairObservations m !! (l, id) = Some hint.

(** The three-slot identifier window. *)
Inductive Window : Type := NoneSeen | OneSeen | TwoOrMoreSeen.

Definition window (m : RoboMemory) : option Window :=
  match lastPlanetID m, lastLastPlanetID m with
  | None, None => Some NoneSeen
  | Some _, None => Some OneSeen
  | Some _, Some _ => Some TwoOrMoreSeen
  | None, Some _ => None
  end.

Definition advance (w : Window) : Window :=
  match w with
  | NoneSeen => OneSeen
  | OneSeen => TwoOrMoreSeen
  | TwoOrMoreSeen => TwoOrMoreSeen
  end.

(** The [Observe] calls of a sequence. *)
Definition is_observe (c : Call) : bool :=
  match c with Observe _ _ => true | Predict _ _ => false end.

Definition observed (id : N) (outcome : bool) (c : Call) : bool :=
  match c with
  | Observe id' outcome' => bool_decide (id' = id) && eqb outcome' outcome
  | Predict _ _ => false
  end.

(** How often a sequence of calls observes a given outcome on a planet. *)
Fixpoint times_observed (id : N) (outcome : bool) (cs : list Call) : Z :=
  match cs with
  | [] => 0
  | c :: cs' =>
      (if observed id outcome c then 1 else 0) + times_observed id outcome cs'
  end.

(** The number of [Observe] calls in a sequence. *)
Fixpoint observe_calls (cs : list Call) : nat :=
  match cs with
  | [] => 0%nat
  | c :: cs' => ((if is_observe c then 1 else 0) + observe_calls cs')%nat
  end.



(** The outcomes a call sequence observes on a planet, in order. *)
Fixpoint outcomes_on (id : N) (cs : list Call) : list bool :=
  match cs with
  | [] => []
  | Predict _ _ :: cs' => outcomes_on id cs'
  | Observe id' outcome :: cs' =>
      if decide (id' = id) then outcome :: outcomes_on id cs'
      else outcomes_on id cs'
  end.

(** How often an outcome occurs in a list of outcomes. *)
Fixpoint occurrences (outcome : bool) (l : list bool) : Z :=
  match l with
  | [] => 0
  | o :: l' => (if eqb o outcome then 1 else 0) + occurrences outcome l'
  end.

(** Every counter holds a non-negative [int]. *)
Definition counters_in_range (m : RoboMemory) : Prop :=
  0 <= consecutiveDayCount m <= INT_MAX /\
  forall id, 0 <= dayCount (tally m id) <= INT_MAX /\
             0 <= nightCount (tally m id) <= INT_MAX.

(** The days observed since the last night, read off the call sequence
    from its end (the sequence is given last call first). *)
Fixpoint trailing_days (rev_cs : list Call) : nat :=
  match rev_cs with
  | [] => 0%nat
  | Observe _ true :: r => S (trailing_days r)
  | Observe _ false :: _ => 0%nat
  | Predict _ _ :: r => trailing_days r
  end.

(** The maps and the window fit together: the planets of a recorded pair
    have records, the two pairs inside a recorded triple are recorded, the
    last planet has a record and the window itself is a recorded pair. *)
Definition history_consistent (m : RoboMemory) : Prop :=
  (forall a b, is_Some (planetPairObservations m !! (a, b)) ->
     is_Some (planetObservations m !! a) /\
     is_Some (planetObservations m !! b)) /\
  (forall a b c, is_Some (planetTripleObservations m !! (a, b, c)) ->
     is_Some (planetPairObservations m !! (a, b)) /\
     is_Some (planetPairObservations m !! (b, c))) /\
  (forall l, lastPlanetID m = Some l ->
     is_Some (planetObservations m !! l)) /\
  (forall ll, lastLastPlanetID m = Some ll ->
     exists l, lastPlanetID m = Some l /\
               is_Some (planetPairObservations m !! (ll, l))).

(** No counter exceeds [k]. *)
Definition counters_at_most (k : Z) (m : RoboMemory) : Prop :=
  0 <= k /\ consecutiveDayCount m <= k /\
  forall id, dayCount (tally m id) <= k /\ nightCount (tally m id) <= k.

(** The observations of a call sequence, its predictions dropped. *)
Fixpoint observes_only (cs : list Call) : list Call :=
  match cs with
  | [] => []
  | Predict _ _ :: cs' => observes_only cs'
  | Observe id outcome :: cs' => Observe id outcome :: observes_only cs'
  end.

(** ** Memories used by the examples *)

(** The memory a call sequence leaves behind a fresh predictor. *)
Definition memory_after (cs : list Call) : RoboMemory :=
  match calls cs RoboMemory_new with
  | Some (_, m) => m
  | None => RoboMemory_new
  end.

(** Two days, on planets 1 and 2. *)
Definition two_days : RoboMemory :=
  memory_after [Observe 1 true; Observe 2 true].

(** Two nights and a day on planet 3: the window is (3, 3), the triple
    (3, 3, 3) and the pair (3, 3) are recorded as day, and planet 3 has a
    tally of 1 day against 2 nights. *)
Definition consensus_calls : list Call :=
  [Observe 3 false; Observe 3 false; Observe 3 true].

Definition consensus_memory : RoboMemory := memory_after consensus_calls.

(** A day and a night on planet 3: a tied tally, and no triple recorded. *)
Definition tie_memory : RoboMemory :=
  memory_after [Observe 3 true; Observe 3 false].

(** Day, day, night on planet 5, with a night on planet 6 after each day:
    the streak is reset in between, and neither the pair (5, 5) nor any
    triple ending in 5 is recorded. *)
Definition interleaved_calls : list Call :=
  [Observe 5 true; Observe 6 false; Observe 5 true; Observe 6 false;
   Observe 5 false].

(** * Properties *)

(** ** The two member functions in closed form *)

Ltac robo_unfold :=
  unfold predictTimeOfDayOnNextPlanet, observeAndRecordTimeofdayOnNextPlanet,
    int_incr, gets, modify, undefined, mbind, mret, Robo_bind, Robo_ret,
    set_planetObservations, set_planetPairObservations,
    set_planetTripleObservations, set_lastPlanetID, set_lastLastPlanetID,
    set_consecutiveDayCount; simpl.

Lemma observe_closed_form (m : RoboMemory) (id : N) (outcome : bool) :
  observeAndRecordTimeofdayOnNextPlanet id outcome m =
  if decide (increments_defined m id outcome) then
    Some (tt, mkRoboMemory
                (<[id := count_outcome outcome (tally m id)]> (planetObservations m))
                (pair_after m id outcome)
                (triple_after m id outcome)
                (Some id)
                (lastPlanetID m)
                (if outcome then consecutiveDayCount m + 1 else 0))
  else None.
Proof.
  destruct (decide (increments_defined m id outcome)) as [Hdef|Hdef];
    destruct m as [obs pr tr l ll c];
    unfold increments_defined, tally, pair_after, triple_after, count_outcome in *;
    robo_unfold; simpl in *;
    destruct outcome; simpl in *;
    destruct (decide (c < INT_MAX)) as [Hc|Hc]; simpl;
    destruct ll as [a|], l as [b|]; simpl;
    destruct (obs !! id) as [st|] eqn:Hid; simpl in *;
    rewrite ?Hid, ?lookup_insert_eq; simpl;
    repeat case_decide; simpl; rewrite ?insert_insert_eq;
    solve [reflexivity | tauto | unfold INT_MAX in *; lia].
Qed.

(** The prediction never has undefined behaviour and hands the memory back
    as it received it. *)
Lemma predict_frame (m : RoboMemory) (id : N) (hint : bool) :
  exists b, predictTimeOfDayOnNextPlanet id hint m = Some (b, m).
Proof.
  destruct m as [obs pr tr l ll c]. robo_unfold.
  destruct (decide (c >= 2)); [eauto|].
  destruct ll as [a|], l as [b|]; simpl;
    try destruct (tr !! (a, b, id)) as [[]|]; simpl;
    try destruct (pr !! (b, id)) as [[]|]; simpl;
    destruct hint; simpl;
    destruct (obs !! id); simpl; eauto.
Qed.

Lemma call_predict (m : RoboMemory) (id : N) (hint : bool) :
  call (Predict id hint) m = Some (tt, m).
Proof.
  destruct (predict_frame m id hint) as [b Hb].
  unfold call, mbind, Robo_bind. rewrite Hb. reflexivity.
Qed.

Lemma call_observe (m : RoboMemory) (id : N) (outcome : bool) :
  call (Observe id outcome) m =
  observeAndRecordTimeofdayOnNextPlanet id outcome m.
Proof. reflexivity. Qed.

Lemma calls_cons (c : Call) (cs : list Call) (m m' : RoboMemory) :
  calls (c :: cs) m = Some (tt, m') <->
  exists m1, call c m = Some (tt, m1) /\ calls cs m1 = Some (tt, m').
Proof.
  simpl. unfold mbind, Robo_bind.
  destruct (call c m) as [[[] m1]|]; split.
  - eauto.
  - intros (m2 & Hm2 & Hcs). congruence.
  - discriminate.
  - intros (m2 & Hm2 & _). discriminate.
Qed.

Lemma calls_nil (m m' : RoboMemory) :
  calls [] m = Some (tt, m') <-> m' = m.
Proof. simpl. unfold mret, Robo_ret. split; congruence. Qed.

Lemma calls_app (cs1 cs2 : list Call) (m m' : RoboMemory) :
  calls (cs1 ++ cs2) m = Some (tt, m') <->
  exists m1, calls cs1 m = Some (tt, m1) /\ calls cs2 m1 = Some (tt, m').
Proof.
  revert m. induction cs1 as [|c cs1 IH]; intros m.
  - rewrite app_nil_l. split.
    + intros H. exists m. split; [by apply calls_nil | done].
    + intros (m1 & H1 & H2). apply calls_nil in H1. by subst.
  - rewrite <- app_comm_cons, calls_cons. split.
    + intros (m1 & Hc & Hrest). apply IH in Hrest as (m2 & H1 & H2).
      exists m2. split; [|done]. apply calls_cons. eauto.
    + intros (m2 & H1 & H2). apply calls_cons in H1 as (m1 & Hc & Hrest).
      exists m1. split; [done|]. apply IH. eauto.
Qed.

(** A property that holds of a memory and survives every call holds after
    any sequence of calls. *)
Lemma calls_preserve (P : RoboMemory -> Prop) :
  (forall c m m', P m -> call c m = Some (tt, m') -> P m') ->
  forall cs m m', P m -> calls cs m = Some (tt, m') -> P m'.
Proof.
  intros Hstep cs. induction cs as [|c cs IH]; intros m m' HP Hrun.
  - apply calls_nil in Hrun. by subst.
  - apply calls_cons in Hrun as (m1 & Hc & Hcs). eauto.
Qed.

Lemma reachable_new : reachable RoboMemory_new.
Proof. exists []. reflexivity. Qed.

Lemma reachable_call (c : Call) (m m' : RoboMemory) :
  reachable m -> call c m = Some (tt, m') -> reachable m'.
Proof.
  intros [cs Hcs] Hc. exists (cs ++ [c]). apply calls_app.
  exists m. split; [done|]. apply calls_cons. exists m'. split; [done|].
  by apply calls_nil.
Qed.

(** What an observation is, when it is defined. *)
Lemma observe_Some (m m' : RoboMemory) (id : N) (outcome : bool) :
  observeAndRecordTimeofdayOnNextPlanet id outcome m = Some (tt, m') ->
  increments_defined m id outcome /\
  m' = mkRoboMemory
         (<[id := count_outcome outcome (tally m id)]> (planetObservations m))
         (pair_after m id outcome) (triple_after m id outcome)
         (Some id) (lastPlanetID m)
         (if outcome then consecutiveDayCount m + 1 else 0).
Proof.
  rewrite observe_closed_form. case_decide; [|discriminate].
  intros [= <-]. done.
Qed.

(** ** Range of the counters *)

Lemma tally_insert (m : RoboMemory) (obs : gmap N TimeStats) (id id' : N) (t : TimeStats) :
  planetObservations m = <[id := t]> obs ->
  tally m id' = if decide (id = id') then t else default TimeStats_default (obs !! id').
Proof.
  intros Hm. unfold tally. rewrite Hm, lookup_insert.
  by case_decide.
Qed.

Lemma counters_in_range_call (c : Call) (m m' : RoboMemory) :
  counters_in_range m -> call c m = Some (tt, m') -> counters_in_range m'.
Proof.
  intros [Hc Ht] Hcall. destruct c as [id hint|id outcome].
  - rewrite call_predict in Hcall. injection Hcall as <-. by split.
  - rewrite call_observe in Hcall. apply observe_Some in Hcall as [Hdef ->].
    split; simpl.
    + destruct outcome; [destruct Hdef|]; unfold INT_MAX in *; lia.
    + intros id'. erewrite tally_insert by reflexivity.
      case_decide as Hid; [|apply (Ht id')].
      specialize (Ht id). unfold increments_defined in Hdef.
      destruct outcome; simpl; unfold INT_MAX in *; lia.
Qed.

Lemma reachable_counters_in_range (m : RoboMemory) :
  reachable m -> counters_in_range m.
Proof.
  intros [cs Hcs].
  refine (calls_preserve counters_in_range counters_in_range_call cs _ _ _ Hcs).
  split; [vm_compute; split; discriminate|].
  intros id. unfold tally. simpl. rewrite lookup_empty. simpl.
  unfold INT_MAX. lia.
Qed.

(** ** Prediction rules *)

Lemma predict_streak (m : RoboMemory) (id : N) (hint : bool) :
  consecutiveDayCount m >= 2 ->
  predictTimeOfDayOnNextPlanet id hint m = Some (false, m).
Proof.
  intros Hc. destruct m as [obs pr tr l ll c]. simpl in Hc. robo_unfold.
  by rewrite decide_True.
Qed.

Lemma reachable_two_days : reachable two_days.
Proof. exists [Observe 1%N true; Observe 2%N true]. vm_compute. reflexivity. Defined.

Lemma reachable_consensus_memory : reachable consensus_memory.
Proof. exists consensus_calls. vm_compute. reflexivity. Defined.

(** C1. In every reachable memory whose [consecutiveDayCount] is at least 2
    the prediction is [false] (night) for every planet and every hint,
    whatever the three maps hold; in particular this is the case right
    after two consecutive observations of a day. *)
Theorem streak_override (m : RoboMemory) (Hreach : reachable m)
    (id : N) (hint : bool) :
  (consecutiveDayCount m >= 2 ->
   predictTimeOfDayOnNextPlanet id hint m = Some (false, m)) /\
  (forall p1 p2 m1 m2,
     observeAndRecordTimeofdayOnNextPlanet p1 true m = Some (tt, m1) ->
     observeAndRecordTimeofdayOnNextPlanet p2 true m1 = Some (tt, m2) ->
     consecutiveDayCount m2 >= 2 /\
     predictTimeOfDayOnNextPlanet id hint m2 = Some (false, m2)).
Proof.
  split; [apply predict_streak|].
  intros p1 p2 m1 m2 H1 H2.
  apply reachable_counters_in_range in Hreach as [Hc _].
  apply observe_Some in H1 as [_ ->].
  apply observe_Some in H2 as [_ ->]. simpl.
  assert (consecutiveDayCount m + 1 + 1 >= 2) as Hge by lia.
  split; [done|]. by apply predict_streak.
Qed.

Lemma streak_override_witness :
  (consecutiveDayCount two_days >= 2 /\
   predictTimeOfDayOnNextPlanet 7 true two_days = Some (false, two_days)) /\
  exists m2,
    calls [Observe 1 true; Observe 2 true] RoboMemory_new = Some (tt, m2) /\
    predictTimeOfDayOnNextPlanet 7 true m2 = Some (false, m2).
Proof.
  split.
  - split; [vm_compute; discriminate|].
    apply (proj1 (streak_override two_days reachable_two_days 7%N true)).
    vm_compute; discriminate.
  - exists two_days. split; [vm_compute; reflexivity|].
    refine (proj2 (proj2 (streak_override RoboMemory_new reachable_new 7%N true)
                     1%N 2%N _ two_days _ _)).
    + vm_compute. reflexivity.
    + vm_compute. reflexivity.
Defined.

(** C2. With a streak below 2, both last identifiers defined, and the triple
    and the pair for the next planet both stored with the value of the hint,
    the prediction is that value, whatever the single-planet tally says. *)
Theorem consensus_returns_hint (m : RoboMemory) (id ll l : N) (hint : bool)
    (Hstreak : consecutiveDayCount m < 2)
    (HlastLast : lastLastPlanetID m = Some ll)
    (Hlast : lastPlanetID m = Some l)
    (Htriple : planetTripleObservations m !! (ll, l, id) = Some hint)
    (Hpair : planetPairObservations m !! (l, id) = Some hint) :
  predictTimeOfDayOnNextPlanet id hint m = Some (hint, m).
Proof.
  destruct m as [obs pr tr l' ll' c]. simpl in *. subst l' ll'.
  robo_unfold. rewrite decide_False by lia. simpl.
  rewrite Htriple. simpl. rewrite Hpair. simpl. by destruct hint.
Qed.

Lemma consensus_returns_hint_witness :
  reachable consensus_memory /\
  tally consensus_memory 3 = mkTimeStats 1 2 /\
  predictTimeOfDayOnNextPlanet 3 true consensus_memory
  = Some (true, consensus_memory).
Proof.
  split; [exact reachable_consensus_memory|].
  split; [vm_compute; reflexivity|].
  apply (consensus_returns_hint consensus_memory 3%N 3%N 3%N true);
    vm_compute; reflexivity.
Defined.

(** C4. With a streak below 2 and without consensus, a planet that has a
    single-planet record is predicted to be in daylight exactly when the
    record counts strictly more days than nights; a tie gives night, and
    the hint plays no part. *)
Theorem single_planet_majority (m : RoboMemory) (id : N) (hint : bool)
    (stats : TimeStats)
    (Hstreak : consecutiveDayCount m < 2)
    (Hnoconsensus : ~ consensus m id hint)
    (Hrecord : planetObservations m !! id = Some stats) :
  predictTimeOfDayOnNextPlanet id hint m
  = Some (bool_decide (dayCount stats > nightCount stats), m) /\
  (dayCount stats = nightCount stats ->
   predictTimeOfDayOnNextPlanet id hint m = Some (false, m)).
Proof.
  assert (predictTimeOfDayOnNextPlanet id hint m
          = Some (bool_decide (dayCount stats > nightCount stats), m)) as Heq.
  { unfold consensus in Hnoconsensus.
    destruct m as [obs pr tr l ll c]. simpl in *.
    robo_unfold. rewrite decide_False by lia. simpl.
    destruct ll as [a|], l as [b|]; simpl;
      try destruct (tr !! (a, b, id)) as [tv|] eqn:Htr; simpl;
      try destruct (pr !! (b, id)) as [pv|] eqn:Hpr; simpl;
      rewrite ?Hrecord; try reflexivity.
    destruct tv, pv, hint; simpl; rewrite ?Hrecord; try reflexivity;
      exfalso; apply Hnoconsensus; eauto 10. }
  split; [done|].
  intros Htie. rewrite Heq, bool_decide_eq_false_2; [done|lia].
Qed.

Lemma single_planet_majority_witness :
  planetObservations tie_memory !! 3%N = Some (mkTimeStats 1 1) /\
  predictTimeOfDayOnNextPlanet 3 true tie_memory = Some (false, tie_memory).
Proof.
  assert (planetObservations tie_memory !! 3%N = Some (mkTimeStats 1 1))
    as Hrecord by (vm_compute; reflexivity).
  split; [exact Hrecord|].
  refine (proj2 (single_planet_majority tie_memory 3%N true (mkTimeStats 1 1)
                   _ _ Hrecord) _).
  - vm_compute. reflexivity.
  - intros (ll & l & Hll & Hl & Htr & _).
    vm_compute in Hll, Hl. injection Hll as <-. injection Hl as <-.
    vm_compute in Htr. discriminate.
  - reflexivity.
Defined.

(** C5. On a freshly constructed predictor the first prediction is the
    hint, for every planet identifier and every hint. *)
Theorem fresh_predict_returns_hint (x : N) (hint : bool) :
  predictTimeOfDayOnNextPlanet x hint RoboMemory_new
  = Some (hint, RoboMemory_new).
Proof.
  unfold RoboMemory_new. robo_unfold. rewrite lookup_empty. reflexivity.
Qed.

(** C7. The prediction returns and leaves the memory as it was: the three
    maps, the two optional identifiers and the streak counter are the same
    after the call as before it. *)
Theorem predict_read_only (m : RoboMemory) (id : N) (hint : bool) :
  exists b m',
    predictTimeOfDayOnNextPlanet id hint m = Some (b, m') /\
    planetObservations m' = planetObservations m /\
    planetPairObservations m' = planetPairObservations m /\
    planetTripleObservations m' = planetTripleObservations m /\
    lastPlanetID m' = lastPlanetID m /\
    lastLastPlanetID m' = lastLastPlanetID m /\
    consecutiveDayCount m' = consecutiveDayCount m.
Proof.
  destruct (predict_frame m id hint) as [b Hb].
  exists b, m. by rewrite Hb.
Qed.

(** ** Observation *)

Lemma tally_call (c : Call) (m m' : RoboMemory) (id : N) :
  call c m = Some (tt, m') ->
  dayCount (tally m' id)
  = dayCount (tally m id) + (if observed id true c then 1 else 0) /\
  nightCount (tally m' id)
  = nightCount (tally m id) + (if observed id false c then 1 else 0).
Proof.
  destruct c as [p hint|p outcome]; intros Hcall.
  - rewrite call_predict in Hcall. injection Hcall as <-. simpl. lia.
  - rewrite call_observe in Hcall. apply observe_Some in Hcall as [_ ->].
    erewrite tally_insert by reflexivity. simpl.
    case_decide as Hp.
    + subst p. rewrite bool_decide_eq_true_2 by done.
      destruct outcome; simpl; lia.
    + rewrite bool_decide_eq_false_2 by done. simpl. fold (tally m id). lia.
Qed.

Lemma tally_calls (cs : list Call) (m m' : RoboMemory) (id : N) :
  calls cs m = Some (tt, m') ->
  dayCount (tally m' id) = dayCount (tally m id) + times_observed id true cs /\
  nightCount (tally m' id) = nightCount (tally m id) + times_observed id false cs.
Proof.
  revert m. induction cs as [|c cs IH]; intros m Hrun.
  - apply calls_nil in Hrun. subst. simpl. lia.
  - apply calls_cons in Hrun as (m1 & Hc & Hcs).
    apply (tally_call _ _ _ id) in Hc. apply IH in Hcs. simpl. lia.
Qed.

Lemma tally_inserted (obs : gmap N TimeStats) pr tr l ll c (id : N) (t : TimeStats) :
  tally (mkRoboMemory (<[id := t]> obs) pr tr l ll c) id = t.
Proof. unfold tally. simpl. by rewrite lookup_insert_eq. Qed.

(** C3. An observation whose increments are defined returns, and changes
    the memory in exactly this way, every key being built from the last
    identifiers of the memory before the call: the streak counter is
    incremented on a day and reset to 0 on a night; the triple and the pair
    ending in the observed planet are set to the outcome when the
    identifiers they need are defined; the window shifts; the tally of the
    observed planet counts one more day or one more night.  Consequently,
    when a later observation writes the same pair or triple key, the lookup
    gives the later outcome, while the tally of the planet has counted both
    observations (and every one in between). *)
Theorem observe_updates (m : RoboMemory) (id : N) (outcome : bool)
    (Hdef : increments_defined m id outcome) :
  exists m',
    observeAndRecordTimeofdayOnNextPlanet id outcome m = Some (tt, m') /\
    consecutiveDayCount m'
    = (if outcome then consecutiveDayCount m + 1 else 0) /\
    planetTripleObservations m'
    = match lastLastPlanetID m, lastPlanetID m with
      | Some ll, Some l => <[(ll, l, id) := outcome]> (planetTripleObservations m)
      | _, _ => planetTripleObservations m
      end /\
    planetPairObservations m'
    = match lastPlanetID m with
      | Some l => <[(l, id) := outcome]> (planetPairObservations m)
      | None => planetPairObservations m
      end /\
    lastLastPlanetID m' = lastPlanetID m /\
    lastPlanetID m' = Some id /\
    planetObservations m'
    = <[id := count_outcome outcome (tally m id)]> (planetObservations m) /\
    (forall cs m2 outcome2 m3 l,
       lastPlanetID m = Some l ->
       calls cs m' = Some (tt, m2) ->
       lastPlanetID m2 = Some l ->
       observeAndRecordTimeofdayOnNextPlanet id outcome2 m2 = Some (tt, m3) ->
       planetPairObservations m' !! (l, id) = Some outcome /\
       planetPairObservations m3 !! (l, id) = Some outcome2 /\
       (forall ll,
          lastLastPlanetID m = Some ll -> lastLastPlanetID m2 = Some ll ->
          planetTripleObservations m' !! (ll, l, id) = Some outcome /\
          planetTripleObservations m3 !! (ll, l, id) = Some outcome2) /\
       dayCount (tally m3 id)
       = dayCount (tally m id) + Z.b2z outcome
         + times_observed id true cs + Z.b2z outcome2 /\
       nightCount (tally m3 id)
       = nightCount (tally m id) + Z.b2z (negb outcome)
         + times_observed id false cs + Z.b2z (negb outcome2)).
Proof.
  eexists. rewrite observe_closed_form, decide_True by done.
  split; [reflexivity|]. simpl.
  do 6 (split; [reflexivity|]).
  intros cs m2 outcome2 m3 l Hl Hcs Hl2 Hobs.
  apply observe_Some in Hobs as [_ ->]. simpl.
  unfold pair_after, triple_after. rewrite Hl, Hl2, !lookup_insert_eq.
  do 2 (split; [reflexivity|]).
  split.
  { intros ll Hll Hll2. by rewrite Hll, Hll2, !lookup_insert_eq. }
  apply (tally_calls _ _ _ id) in Hcs as [Hday Hnight].
  rewrite tally_inserted in Hday, Hnight. rewrite tally_inserted.
  destruct outcome, outcome2; simpl in *; lia.
Qed.

Lemma observe_updates_witness :
  exists m' m3,
    observeAndRecordTimeofdayOnNextPlanet 3 true consensus_memory = Some (tt, m') /\
    calls [Predict 9 false; Observe 3 false] m' = Some (tt, m3) /\
    consecutiveDayCount m' = 2 /\
    planetPairObservations m' !! (3%N, 3%N) = Some true /\
    planetPairObservations m3 !! (3%N, 3%N) = Some false /\
    planetTripleObservations m3 !! (3%N, 3%N, 3%N) = Some false /\
    dayCount (tally m3 3) = 2 /\ nightCount (tally m3 3) = 3.
Proof.
  assert (increments_defined consensus_memory 3 true) as Hdef
    by (vm_compute; split; reflexivity).
  destruct (observe_updates consensus_memory 3%N true Hdef)
    as (m' & Hrun & Hc & _ & _ & _ & _ & _ & Htwo).
  pose (m3 := match calls [Observe 3%N false] m' with
              | Some (_, x) => x | None => m' end).
  pose proof Hrun as Hm'. vm_compute in Hm'. injection Hm' as Hm'.
  destruct (Htwo [Predict 9%N false] m' false m3 3%N)
    as (Hp1 & Hp3 & Htr & Hday & Hnight).
  - vm_compute. reflexivity.
  - rewrite <- Hm'. vm_compute. reflexivity.
  - rewrite <- Hm'. vm_compute. reflexivity.
  - subst m3. rewrite <- Hm'. vm_compute. reflexivity.
  - destruct (Htr 3%N) as [_ Htr3].
    + vm_compute. reflexivity.
    + rewrite <- Hm'. vm_compute. reflexivity.
    + exists m', m3. split; [exact Hrun|]. split.
      { subst m3. rewrite <- Hm'. vm_compute. reflexivity. }
      split; [rewrite Hc; vm_compute; reflexivity|].
      do 3 (split; [assumption|]).
      rewrite Hday, Hnight. split; vm_compute; reflexivity.
Defined.

(** ** The identifier window *)

Lemma window_call (c : Call) (m m' : RoboMemory) (w : Window) :
  window m = Some w -> call c m = Some (tt, m') ->
  window m' = Some (if is_observe c then advance w else w).
Proof.
  intros Hw Hcall. destruct c as [id hint|id outcome]; simpl.
  - rewrite call_predict in Hcall. by injection Hcall as <-.
  - rewrite call_observe in Hcall. apply observe_Some in Hcall as [_ ->].
    unfold window in *. simpl.
    destruct (lastPlanetID m), (lastLastPlanetID m); by simplify_eq.
Qed.

Lemma window_calls (cs : list Call) (m m' : RoboMemory) (w : Window) :
  window m = Some w -> calls cs m = Some (tt, m') ->
  window m' = Some (Nat.iter (observe_calls cs) advance w).
Proof.
  revert m w. induction cs as [|c cs IH]; intros m w Hw Hrun.
  - apply calls_nil in Hrun. by subst.
  - apply calls_cons in Hrun as (m1 & Hc & Hcs).
    pose proof (window_call _ _ _ _ Hw Hc) as Hw1.
    rewrite (IH _ _ Hw1 Hcs). simpl observe_calls.
    destruct (is_observe c); [|done].
    by rewrite Nat.iter_succ_r.
Qed.

(** C9. In the memory reached from a fresh predictor by any sequence of
    calls, [lastLastPlanetID] is defined only if [lastPlanetID] is.  The
    window is none-seen before the first observation, one-seen after it and
    two-or-more-seen from the second on; a prediction leaves it alone.  A
    further call never empties a slot that is defined. *)
Theorem window_states (cs : list Call) (m : RoboMemory)
    (Hrun : calls cs RoboMemory_new = Some (tt, m)) :
  (is_Some (lastLastPlanetID m) -> is_Some (lastPlanetID m)) /\
  window m = Some (Nat.iter (observe_calls cs) advance NoneSeen) /\
  (forall c m',
     call c m = Some (tt, m') ->
     (is_Some (lastPlanetID m) -> is_Some (lastPlanetID m')) /\
     (is_Some (lastLastPlanetID m) -> is_Some (lastLastPlanetID m')) /\
     window m'
     = Some (Nat.iter (observe_calls (cs ++ [c])) advance NoneSeen)).
Proof.
  assert (window m = Some (Nat.iter (observe_calls cs) advance NoneSeen)) as Hw.
  { by apply (window_calls cs RoboMemory_new). }
  assert (is_Some (lastLastPlanetID m) -> is_Some (lastPlanetID m)) as Hinv.
  { unfold window in Hw.
    destruct (lastPlanetID m), (lastLastPlanetID m); eauto; discriminate. }
  split; [done|]. split; [done|].
  intros c m' Hcall.
  assert (calls (cs ++ [c]) RoboMemory_new = Some (tt, m')) as Hrun'.
  { apply calls_app. exists m. split; [done|]. apply calls_cons.
    exists m'. split; [done|]. by apply calls_nil. }
  split; [|split].
  - destruct c as [id hint|id outcome].
    + rewrite call_predict in Hcall. by injection Hcall as <-.
    + rewrite call_observe in Hcall. apply observe_Some in Hcall as [_ ->].
      simpl. eauto.
  - destruct c as [id hint|id outcome].
    + rewrite call_predict in Hcall. by injection Hcall as <-.
    + rewrite call_observe in Hcall. apply observe_Some in Hcall as [_ ->].
      simpl. done.
  - by apply (window_calls _ RoboMemory_new).
Qed.

Lemma window_states_witness :
  exists m,
    calls [Observe 4 false; Predict 9 true; Observe 6 true; Observe 4 true]
      RoboMemory_new = Some (tt, m) /\
    lastLastPlanetID m = Some 6%N /\ lastPlanetID m = Some 4%N /\
    window m = Some TwoOrMoreSeen.
Proof.
  pose (cs := [Observe 4%N false; Predict 9%N true; Observe 6%N true;
               Observe 4%N true]).
  pose (m := match calls cs RoboMemory_new with
             | Some (_, x) => x | None => RoboMemory_new end).
  assert (calls cs RoboMemory_new = Some (tt, m)) as Hrun
    by (vm_compute; reflexivity).
  destruct (window_states cs m Hrun) as (_ & Hw & _).
  exists m. split; [exact Hrun|].
  split; [reflexivity|]. split; [reflexivity|]. exact Hw.
Defined.

(** ** No eviction *)

Lemma dom_call (c : Call) (m m' : RoboMemory) :
  call c m = Some (tt, m') ->
  dom (planetObservations m) ⊆ dom (planetObservations m') /\
  dom (planetPairObservations m) ⊆ dom (planetPairObservations m') /\
  dom (planetTripleObservations m) ⊆ dom (planetTripleObservations m').
Proof.
  intros Hcall. destruct c as [id hint|id outcome].
  - rewrite call_predict in Hcall. by injection Hcall as <-.
  - rewrite call_observe in Hcall. apply observe_Some in Hcall as [_ ->].
    unfold pair_after, triple_after. simpl.
    split; [|split].
    + apply dom_insert_subseteq.
    + destruct (lastPlanetID m); [apply dom_insert_subseteq|done].
    + destruct (lastLastPlanetID m), (lastPlanetID m);
        [apply dom_insert_subseteq|done..].
Qed.

(** C10. No call removes a key from any of the three maps: across any
    sequence of calls (a single call included) every key of
    [planetObservations], [planetPairObservations] and
    [planetTripleObservations] is still a key afterwards. *)
Theorem no_eviction (cs : list Call) (m m' : RoboMemory)
    (Hrun : calls cs m = Some (tt, m')) :
  dom (planetObservations m) ⊆ dom (planetObservations m') /\
  dom (planetPairObservations m) ⊆ dom (planetPairObservations m') /\
  dom (planetTripleObservations m) ⊆ dom (planetTripleObservations m').
Proof.
  revert m Hrun. induction cs as [|c cs IH]; intros m Hrun.
  - apply calls_nil in Hrun. by subst.
  - apply calls_cons in Hrun as (m1 & Hc & Hcs).
    apply dom_call in Hc as (Ho & Hp & Ht).
    apply IH in Hcs as (Ho' & Hp' & Ht').
    repeat split; etrans; eassumption.
Qed.

Lemma no_eviction_witness :
  exists m',
    calls [Predict 3 false; Observe 4 false] consensus_memory = Some (tt, m') /\
    3%N ∈ dom (planetObservations m') /\
    (3%N, 3%N) ∈ dom (planetPairObservations m') /\
    (3%N, 3%N, 3%N) ∈ dom (planetTripleObservations m').
Proof.
  pose (cs := [Predict 3%N false; Observe 4%N false]).
  pose (m' := match calls cs consensus_memory with
              | Some (_, x) => x | None => consensus_memory end).
  assert (calls cs consensus_memory = Some (tt, m')) as Hrun
    by (vm_compute; reflexivity).
  destruct (no_eviction cs consensus_memory m' Hrun) as (Ho & Hp & Ht).
  exists m'. split; [exact Hrun|].
  split; [apply Ho|split; [apply Hp|apply Ht]];
    apply elem_of_dom; eexists; vm_compute; reflexivity.
Defined.

(** ** Growth of the single-planet map *)




(** * Further properties *)

(** ** The hash functors collide on permuted keys *)

Ltac lxor_bits :=
  apply N.bits_inj; intros ?n;
  rewrite ?N.lxor_spec, ?N.bits_0;
  repeat match goal with
         | |- context [N.testbit ?x ?n] => destruct (N.testbit x n)
         end;
  reflexivity.

(** X1. [pair_hash] does not see the order of the pair, and sends every pair of
    two equal identifiers to 0, whatever [std::hash] is. *)
Theorem pair_hash_collisions (std_hash : N -> N) (a b : N) :
  pair_hash std_hash (a, b) = pair_hash std_hash (b, a) /\
  pair_hash std_hash (a, a) = 0%N /\
  pair_hash std_hash (a, a) = pair_hash std_hash (b, b).
Proof.
  unfold pair_hash. simpl.
  rewrite !N.lxor_nilpotent. split; [apply N.lxor_comm|done].
Qed.

(** X2. [triple_hash] does not see the order of the triple, and a triple that
    repeats an identifier hashes like the remaining identifier alone. *)
Theorem triple_hash_collisions (std_hash : N -> N) (a b c : N) :
  triple_hash std_hash (a, b, c) = triple_hash std_hash (b, a, c) /\
  triple_hash std_hash (a, b, c) = triple_hash std_hash (a, c, b) /\
  triple_hash std_hash (a, b, c) = triple_hash std_hash (c, b, a) /\
  triple_hash std_hash (a, a, c) = std_hash c /\
  triple_hash std_hash (a, c, c) = std_hash a /\
  triple_hash std_hash (a, c, a) = std_hash c.
Proof.
  unfold triple_hash. simpl. repeat split; lxor_bits.
Qed.

(** ** More on the prediction *)

(** The value a prediction returns. *)
Lemma predict_cases (m : RoboMemory) (id : N) (hint : bool) :
  consecutiveDayCount m < 2 ->
  (consensus m id hint /\
   predictTimeOfDayOnNextPlanet id hint m = Some (hint, m)) \/
  (~ consensus m id hint /\
   predictTimeOfDayOnNextPlanet id hint m
   = Some (match planetObservations m !! id with
           | Some stats => bool_decide (dayCount stats > nightCount stats)
           | None => hint
           end, m)).
Proof.
  intros Hc. destruct m as [obs pr tr l ll c]. simpl in *.
  unfold consensus. simpl. robo_unfold.
  rewrite decide_False by lia. simpl.
  destruct ll as [a|]; [destruct l as [b|]|]; simpl.
  - destruct (tr !! (a, b, id)) as [tv|] eqn:Htr; simpl;
      destruct (pr !! (b, id)) as [pv|] eqn:Hpr; simpl.
    + destruct (decide (tv = hint /\ pv = hint)) as [[-> ->]|Hne].
      * left. split; [eauto 10|]. by destruct hint.
      * right. split.
        { intros (a' & b' & [= <-] & [= <-] & Ht & Hp).
          rewrite Htr in Ht. rewrite Hpr in Hp. naive_solver. }
        destruct tv, pv, hint; simpl; try (exfalso; by apply Hne);
          by destruct (obs !! id).
    + right. split.
      { intros (a' & b' & [= <-] & [= <-] & _ & Hp). congruence. }
      by destruct (obs !! id).
    + right. split.
      { intros (a' & b' & [= <-] & [= <-] & Ht & _). congruence. }
      by destruct (obs !! id).
    + right. split.
      { intros (a' & b' & [= <-] & [= <-] & Ht & _). congruence. }
      by destruct (obs !! id).
  - right. split; [intros (a' & b' & _ & [=] & _)|].
    by destruct (obs !! id).
  - right. split; [intros (a' & b' & [=] & _)|].
    destruct l as [b|]; simpl; [destruct (pr !! (b, id)); simpl|];
      by destruct (obs !! id).
Qed.

Lemma predict_no_record (m : RoboMemory) (id : N) (hint : bool) :
  consecutiveDayCount m < 2 ->
  planetObservations m !! id = None ->
  predictTimeOfDayOnNextPlanet id hint m = Some (hint, m).
Proof.
  intros Hstreak Hunknown.
  destruct (predict_cases m id hint Hstreak) as [[_ H]|[_ H]]; [done|].
  by rewrite H, Hunknown.
Qed.

(** X3. A planet without a single-planet record is predicted as the hint says,
    whenever the streak is below 2: with or without consensus, every rule
    that remains returns the hint. *)
Theorem unknown_planet_follows_hint (m : RoboMemory) (id : N) (hint : bool)
    (Hstreak : consecutiveDayCount m < 2)
    (Hunknown : planetObservations m !! id = None) :
  predictTimeOfDayOnNextPlanet id hint m = Some (hint, m).
Proof. by apply predict_no_record. Qed.

Lemma unknown_planet_follows_hint_witness :
  predictTimeOfDayOnNextPlanet 8 true consensus_memory
  = Some (true, consensus_memory) /\
  predictTimeOfDayOnNextPlanet 8 false consensus_memory
  = Some (false, consensus_memory).
Proof.
  split; apply unknown_planet_follows_hint; vm_compute; reflexivity.
Defined.

(** X4. The prediction is monotone in the hint: if a planet is predicted to be
    in daylight under the hint "night", it is also predicted to be in
    daylight under the hint "day", in the same memory. *)
Theorem predict_monotone_in_hint (m : RoboMemory) (id : N)
    (Hday : predictTimeOfDayOnNextPlanet id false m = Some (true, m)) :
  predictTimeOfDayOnNextPlanet id true m = Some (true, m).
Proof.
  destruct (decide (consecutiveDayCount m >= 2)) as [Hc|Hc].
  { rewrite predict_streak in Hday by done. discriminate. }
  assert (consecutiveDayCount m < 2) as Hlt by lia.
  destruct (predict_cases m id false Hlt) as [[_ H]|[_ H]];
    rewrite H in Hday; [discriminate|].
  destruct (predict_cases m id true Hlt) as [[_ H']|[_ H']]; [done|].
  rewrite H'. destruct (planetObservations m !! id); [done|discriminate].
Qed.

Lemma predict_monotone_in_hint_witness :
  predictTimeOfDayOnNextPlanet 1 false (memory_after [Observe 1 true])
  = Some (true, memory_after [Observe 1 true]) /\
  predictTimeOfDayOnNextPlanet 1 true (memory_after [Observe 1 true])
  = Some (true, memory_after [Observe 1 true]).
Proof.
  assert (predictTimeOfDayOnNextPlanet 1 false (memory_after [Observe 1%N true])
          = Some (true, memory_after [Observe 1%N true])) as Hday
    by (vm_compute; reflexivity).
  split; [exact Hday|].
  exact (predict_monotone_in_hint _ 1%N Hday).
Defined.

(** X5. A prediction departs from the hint in two ways only: the streak
    override turns a hint "day" into night, or the planet has a
    single-planet record whose strict majority is the returned value and
    there is no consensus. *)
Theorem predict_departs_from_hint (m : RoboMemory) (id : N) (hint b : bool)
    (Hrun : predictTimeOfDayOnNextPlanet id hint m = Some (b, m))
    (Hdiff : b <> hint) :
  (consecutiveDayCount m >= 2 /\ hint = true /\ b = false) \/
  (consecutiveDayCount m < 2 /\ ~ consensus m id hint /\
   exists stats,
     planetObservations m !! id = Some stats /\
     b = bool_decide (dayCount stats > nightCount stats)).
Proof.
  destruct (decide (consecutiveDayCount m >= 2)) as [Hc|Hc].
  { left. rewrite predict_streak in Hrun by done.
    injection Hrun as <-. by destruct hint. }
  right. assert (consecutiveDayCount m < 2) as Hlt by lia.
  split; [done|].
  destruct (predict_cases m id hint Hlt) as [[_ H]|[Hno H]];
    rewrite H in Hrun; injection Hrun as <-; [done|].
  split; [done|].
  destruct (planetObservations m !! id) as [stats|]; [eauto|done].
Qed.

Lemma predict_departs_from_hint_witness :
  (consecutiveDayCount two_days >= 2 /\ true = true /\ false = false) \/
  (consecutiveDayCount two_days < 2 /\ ~ consensus two_days 7 true /\
   exists stats,
     planetObservations two_days !! 7%N = Some stats /\
     false = bool_decide (dayCount stats > nightCount stats)).
Proof.
  apply (predict_departs_from_hint two_days 7%N true false).
  - vm_compute. reflexivity.
  - discriminate.
Defined.

(** ** The streak counter and the history *)

Lemma calls_snoc (cs : list Call) (c : Call) (m m' : RoboMemory) :
  calls (cs ++ [c]) m = Some (tt, m') <->
  exists m1, calls cs m = Some (tt, m1) /\ call c m1 = Some (tt, m').
Proof.
  rewrite calls_app. split; intros (m1 & H1 & H2); exists m1; split; try done.
  - apply calls_cons in H2 as (m2 & Hc & Hnil).
    apply calls_nil in Hnil. by subst.
  - apply calls_cons. exists m'. split; [done|]. by apply calls_nil.
Qed.

(** X6. The streak counter of a predictor is the number of days observed since
    the last observed night (or since construction), predictions aside.
    When the last two observations were days every prediction is night;
    otherwise a planet without a record is predicted as the hint says. *)
Theorem streak_counts_trailing_days (cs : list Call) (m : RoboMemory)
    (Hrun : calls cs RoboMemory_new = Some (tt, m)) :
  consecutiveDayCount m = Z.of_nat (trailing_days (rev cs)) /\
  ((2 <= trailing_days (rev cs))%nat ->
   forall id hint,
     predictTimeOfDayOnNextPlanet id hint m = Some (false, m)) /\
  ((trailing_days (rev cs) < 2)%nat ->
   forall id hint,
     planetObservations m !! id = None ->
     predictTimeOfDayOnNextPlanet id hint m = Some (hint, m)).
Proof.
  assert (consecutiveDayCount m = Z.of_nat (trailing_days (rev cs))) as Hcount.
  { revert m Hrun. induction cs as [|c cs IH] using rev_ind; intros m Hrun.
    - apply calls_nil in Hrun. by subst.
    - apply calls_snoc in Hrun as (m1 & Hcs & Hc).
      rewrite rev_unit. specialize (IH _ Hcs).
      destruct c as [id hint|id outcome].
      + rewrite call_predict in Hc. injection Hc as <-. done.
      + rewrite call_observe in Hc. apply observe_Some in Hc as [_ ->].
        destruct outcome; simpl; lia. }
  split; [done|]. split.
  - intros Hge id hint. apply predict_streak. lia.
  - intros Hlt id hint Hunseen. apply predict_no_record; [lia|done].
Qed.

Lemma streak_counts_trailing_days_witness :
  consecutiveDayCount
    (memory_after [Observe 1 true; Observe 2 false; Predict 5 true;
                   Observe 3 true]) = 1.
Proof.
  pose (cs := [Observe 1%N true; Observe 2%N false; Predict 5%N true;
               Observe 3%N true]).
  assert (calls cs RoboMemory_new = Some (tt, memory_after cs)) as Hrun
    by (vm_compute; reflexivity).
  exact (proj1 (streak_counts_trailing_days cs _ Hrun)).
Defined.

(** ** The single-planet map and the history *)

Lemma times_observed_nonneg (id : N) (outcome : bool) (cs : list Call) :
  0 <= times_observed id outcome cs.
Proof.
  induction cs as [|c cs IH]; simpl; [done|].
  destruct (observed id outcome c); lia.
Qed.

Lemma record_call (c : Call) (m m' : RoboMemory) (id : N) :
  call c m = Some (tt, m') ->
  planetObservations m' !! id =
  if observed id true c || observed id false c
  then Some (count_outcome (observed id true c) (tally m id))
  else planetObservations m !! id.
Proof.
  destruct c as [p hint|p outcome]; intros Hcall.
  - rewrite call_predict in Hcall. by injection Hcall as <-.
  - rewrite call_observe in Hcall. apply observe_Some in Hcall as [_ ->].
    simpl. rewrite lookup_insert. case_decide as Hp.
    + subst p. rewrite bool_decide_eq_true_2 by done. by destruct outcome.
    + rewrite bool_decide_eq_false_2 by done. done.
Qed.

Lemma record_calls (cs : list Call) (m m' : RoboMemory) (id : N) :
  calls cs m = Some (tt, m') ->
  planetObservations m' !! id =
  if decide (times_observed id true cs + times_observed id false cs = 0)
  then planetObservations m !! id
  else Some (mkTimeStats (dayCount (tally m id) + times_observed id true cs)
                         (nightCount (tally m id) + times_observed id false cs)).
Proof.
  revert m'. induction cs as [|c cs IH] using rev_ind; intros m' Hrun.
  - apply calls_nil in Hrun. by subst.
  - apply calls_snoc in Hrun as (m1 & Hcs & Hc).
    specialize (IH _ Hcs).
    pose proof (tally_calls _ _ _ id Hcs) as [Hday Hnight].
    pose proof (tally_calls _ _ _ id (proj2 (calls_snoc cs c m m')
                  (ex_intro _ m1 (conj Hcs Hc)))) as [Hday' Hnight'].
    pose proof (tally_call _ _ _ id Hc) as [Hd1 Hn1].
    pose proof (times_observed_nonneg id true cs).
    pose proof (times_observed_nonneg id false cs).
    rewrite (record_call _ _ _ id Hc).
    destruct (observed id true c) eqn:Ht, (observed id false c) eqn:Hf; simpl.
    + destruct c as [|p o]; [done|]. simpl in Ht, Hf.
      destruct o; simpl in *; rewrite ?andb_false_r in *; done.
    + rewrite decide_False by lia. f_equal.
      destruct (tally m1 id) as [d n]. simpl in *. f_equal; lia.
    + rewrite decide_False by lia. f_equal.
      destruct (tally m1 id) as [d n]. simpl in *. f_equal; lia.
    + rewrite IH.
      destruct (decide (times_observed id true cs
                        + times_observed id false cs = 0)) as [Hz|Hz].
      * rewrite decide_True by lia. done.
      * rewrite decide_False by lia. f_equal. f_equal; lia.
Qed.

(** X7. The single-planet map is the history counted: after any sequence of
    calls on a fresh predictor, a planet has a record exactly when it was
    observed, and the record holds the number of days and the number of
    nights observed on it. *)
Theorem records_count_history (cs : list Call) (m : RoboMemory) (id : N)
    (Hrun : calls cs RoboMemory_new = Some (tt, m)) :
  planetObservations m !! id =
  if decide (times_observed id true cs + times_observed id false cs = 0)
  then None
  else Some (mkTimeStats (times_observed id true cs)
                         (times_observed id false cs)).
Proof.
  rewrite (record_calls cs RoboMemory_new m id Hrun).
  case_decide; [apply lookup_empty|].
  unfold tally. simpl. rewrite lookup_empty. simpl. done.
Qed.

Lemma records_count_history_witness :
  planetObservations
    (memory_after [Observe 3 true; Observe 4 false; Observe 3 false;
                   Predict 6 true; Observe 3 true]) !! 3%N
  = Some (mkTimeStats 2 1).
Proof.
  pose (cs := [Observe 3%N true; Observe 4%N false; Observe 3%N false;
               Predict 6%N true; Observe 3%N true]).
  assert (calls cs RoboMemory_new = Some (tt, memory_after cs)) as Hrun
    by (vm_compute; reflexivity).
  exact (records_count_history cs _ 3%N Hrun).
Defined.

(** ** The maps and the window fit together *)

Lemma history_consistent_call (c : Call) (m m' : RoboMemory) :
  history_consistent m -> call c m = Some (tt, m') -> history_consistent m'.
Proof.
  intros (Hpair & Htriple & Hlast & Hwin) Hcall.
  destruct c as [id hint|id outcome].
  { rewrite call_predict in Hcall. injection Hcall as <-. done. }
  rewrite call_observe in Hcall. apply observe_Some in Hcall as [_ ->].
  unfold history_consistent, pair_after, triple_after. simpl.
  assert (forall k t, is_Some (planetObservations m !! k) ->
            is_Some (<[id := t]> (planetObservations m) !! k)) as Hobs.
  { intros k t Hk. rewrite lookup_insert. by case_decide. }
  assert (forall t, is_Some (<[id := t]> (planetObservations m) !! id)) as Hid.
  { intros t. rewrite lookup_insert_eq. eauto. }
  destruct (lastPlanetID m) as [l|] eqn:Hl.
  - pose proof (Hlast l eq_refl) as Hlrec.
    assert (forall k, is_Some (planetPairObservations m !! k) ->
              is_Some (<[(l, id) := outcome]> (planetPairObservations m) !! k))
      as Hmono.
    { intros k Hk. rewrite lookup_insert. by case_decide. }
    assert (is_Some (<[(l, id) := outcome]> (planetPairObservations m)
                       !! (l, id))) as Hnew.
    { rewrite lookup_insert_eq. eauto. }
    split; [|split; [|split]].
    + intros a b Hab. rewrite lookup_insert in Hab.
      case_decide as Hk; [injection Hk as <- <-; eauto|].
      destruct (Hpair a b Hab). eauto.
    + intros a b c Habc.
      destruct (lastLastPlanetID m) as [ll|] eqn:Hll.
      * rewrite lookup_insert in Habc.
        case_decide as Hk.
        { injection Hk as <- <- <-.
          destruct (Hwin ll eq_refl) as (l' & [= <-] & Hp). eauto. }
        destruct (Htriple a b c Habc). eauto.
      * destruct (Htriple a b c Habc). eauto.
    + intros l' [= <-]. apply Hid.
    + intros ll [= <-]. eauto.
  - split; [|split; [|split]].
    + intros a b Hab. destruct (Hpair a b Hab). eauto.
    + intros a b c Habc.
      destruct (lastLastPlanetID m) as [ll|] eqn:Hll.
      * destruct (Hwin ll eq_refl) as (l' & [=] & _).
      * apply (Htriple a b c Habc).
    + intros l' [= <-]. apply Hid.
    + intros ll [=].
Qed.

(** X8. In every reachable memory the maps and the window fit together: both
    planets of a recorded pair have a single-planet record, both pairs
    inside a recorded triple are recorded, the last planet has a record,
    and the two window identifiers form a recorded pair.  So whenever the
    triple lookup of a prediction succeeds the pair lookup succeeds too,
    and whenever the pair lookup succeeds the planet has a record. *)
Theorem reachable_history_consistent (m : RoboMemory) (Hreach : reachable m) :
  history_consistent m /\
  (forall ll l id,
     lastLastPlanetID m = Some ll -> lastPlanetID m = Some l ->
     is_Some (planetTripleObservations m !! (ll, l, id)) ->
     is_Some (planetPairObservations m !! (l, id))) /\
  (forall l id,
     lastPlanetID m = Some l ->
     is_Some (planetPairObservations m !! (l, id)) ->
     is_Some (planetObservations m !! id)).
Proof.
  assert (history_consistent m) as Hcons.
  { destruct Hreach as [cs Hcs].
    refine (calls_preserve history_consistent history_consistent_call
              cs _ _ _ Hcs).
    unfold history_consistent. simpl.
    repeat split; try (intros; rewrite lookup_empty in *;
                       by apply is_Some_None in H); try done. }
  split; [done|]. destruct Hcons as (Hpair & Htriple & _ & _).
  split.
  - intros ll l id _ _ Ht. by destruct (Htriple ll l id Ht).
  - intros l id _ Hp. by destruct (Hpair l id Hp).
Qed.

Lemma reachable_history_consistent_witness :
  is_Some (planetPairObservations consensus_memory !! (3%N, 3%N)) /\
  is_Some (planetObservations consensus_memory !! 3%N).
Proof.
  destruct (reachable_history_consistent consensus_memory
              reachable_consensus_memory) as (_ & Htp & Hpo).
  assert (is_Some (planetPairObservations consensus_memory !! (3%N, 3%N)))
    as Hp.
  { apply (Htp 3%N 3%N 3%N); [vm_compute; reflexivity..|].
    eexists. vm_compute. reflexivity. }
  split; [exact Hp|].
  apply (Hpo 3%N 3%N); [vm_compute; reflexivity|exact Hp].
Defined.

(** ** Growth of the maps *)

Lemma size_insert_le `{Countable K} {A : Type} (mp : gmap K A) (k : K) (v : A) :
  (size (<[k := v]> mp) <= S (size mp))%nat.
Proof.
  destruct (mp !! k) eqn:Hk.
  - rewrite map_size_insert_Some by eauto. lia.
  - rewrite map_size_insert_None by done. lia.
Qed.

Lemma size_call (c : Call) (m m' : RoboMemory) :
  call c m = Some (tt, m') ->
  let n := (if is_observe c then 1 else 0)%nat in
  (size (planetObservations m') <= size (planetObservations m) + n)%nat /\
  (size (planetPairObservations m')
   <= size (planetPairObservations m) + n)%nat /\
  (size (planetTripleObservations m')
   <= size (planetTripleObservations m) + n)%nat.
Proof.
  intros Hcall. destruct c as [id hint|id outcome]; simpl.
  - rewrite call_predict in Hcall. injection Hcall as <-. lia.
  - rewrite call_observe in Hcall. apply observe_Some in Hcall as [_ ->].
    unfold pair_after, triple_after. simpl.
    pose proof (size_insert_le (planetObservations m) id
                  (count_outcome outcome (tally m id))).
    split; [lia|]. split.
    + destruct (lastPlanetID m) as [l|]; [|lia].
      pose proof (size_insert_le (planetPairObservations m) (l, id) outcome).
      lia.
    + destruct (lastLastPlanetID m) as [ll|], (lastPlanetID m) as [l|];
        try lia.
      pose proof (size_insert_le (planetTripleObservations m)
                    (ll, l, id) outcome).
      lia.
Qed.

(** X9. A call adds at most one element to each map, and a prediction none:
    across a sequence of calls each of the three maps grows by at most the
    number of observations in the sequence. *)
Theorem maps_grow_by_observations (cs : list Call) (m m' : RoboMemory)
    (Hrun : calls cs m = Some (tt, m')) :
  (size (planetObservations m')
   <= size (planetObservations m) + observe_calls cs)%nat /\
  (size (planetPairObservations m')
   <= size (planetPairObservations m) + observe_calls cs)%nat /\
  (size (planetTripleObservations m')
   <= size (planetTripleObservations m) + observe_calls cs)%nat.
Proof.
  revert m Hrun. induction cs as [|c cs IH]; intros m Hrun.
  - apply calls_nil in Hrun. subst. simpl. lia.
  - apply calls_cons in Hrun as (m1 & Hc & Hcs).
    apply size_call in Hc. apply IH in Hcs. simpl in *. lia.
Qed.

Lemma maps_grow_by_observations_witness :
  (size (planetObservations
           (memory_after [Observe 1 true; Predict 2 true; Observe 1 false]))
   <= 2)%nat.
Proof.
  pose (cs := [Observe 1%N true; Predict 2%N true; Observe 1%N false]).
  assert (calls cs RoboMemory_new = Some (tt, memory_after cs)) as Hrun
    by (vm_compute; reflexivity).
  exact (proj1 (maps_grow_by_observations cs _ _ Hrun)).
Defined.

(** ** Where the behaviour is defined *)

(** X11. An observation has undefined behaviour exactly when it would increment
    an [int] that is at [INT_MAX] (or beyond): on a day the streak counter
    or the day count of the planet, on a night the night count of the
    planet.  A missing record, an empty window or a repeated planet never
    makes it undefined. *)
Theorem observe_undefined_iff_overflow (m : RoboMemory) (id : N) (outcome : bool) :
  observeAndRecordTimeofdayOnNextPlanet id outcome m = None <->
  (outcome = true /\
   (INT_MAX <= consecutiveDayCount m \/ INT_MAX <= dayCount (tally m id))) \/
  (outcome = false /\ INT_MAX <= nightCount (tally m id)).
Proof.
  rewrite observe_closed_form. unfold increments_defined.
  case_decide as Hdef; destruct outcome; split; try discriminate;
    intros; try done; try (exfalso; lia); [left|right]; split; try done; lia.
Qed.

Lemma counters_at_most_call (c : Call) (m : RoboMemory) (k : Z) :
  counters_at_most k m -> k < INT_MAX ->
  exists m', call c m = Some (tt, m') /\
             counters_at_most (k + (if is_observe c then 1 else 0)) m'.
Proof.
  intros (Hk & Hc & Ht) Hlt. destruct c as [id hint|id outcome];
    cbn [is_observe].
  - exists m. rewrite call_predict. split; [done|].
    rewrite Z.add_0_r. done.
  - rewrite call_observe, observe_closed_form, decide_True; cycle 1.
    { unfold increments_defined. specialize (Ht id). destruct outcome; lia. }
    eexists. split; [reflexivity|].
    split; [lia|]. split; simpl.
    + destruct outcome; lia.
    + intros id'. erewrite tally_insert by reflexivity.
      case_decide as Hid.
      * specialize (Ht id). destruct outcome; simpl; lia.
      * specialize (Ht id'). unfold tally in Ht. lia.
Qed.

Lemma counters_at_most_calls (cs : list Call) (m : RoboMemory) (k : Z) :
  counters_at_most k m -> k + Z.of_nat (observe_calls cs) <= INT_MAX ->
  exists m', calls cs m = Some (tt, m') /\
             counters_at_most (k + Z.of_nat (observe_calls cs)) m'.
Proof.
  revert m k. induction cs as [|c cs IH]; intros m k Hm Hle.
  - exists m. split; [reflexivity|]. simpl. by rewrite Z.add_0_r.
  - simpl observe_calls in *.
    destruct (is_observe c) eqn:Hobs.
    + destruct (counters_at_most_call c m k Hm) as (m1 & Hc & Hm1); [lia|].
      rewrite Hobs in Hm1.
      destruct (IH m1 (k + 1) Hm1) as (m' & Hcs & Hm'); [lia|].
      exists m'. split; [apply calls_cons; eauto|].
      replace (k + Z.of_nat (1 + observe_calls cs))
        with (k + 1 + Z.of_nat (observe_calls cs)) by lia. done.
    + destruct c as [id hint|]; [|done].
      destruct (IH m k Hm) as (m' & Hcs & Hm'); [lia|].
      exists m'. split; [|done].
      apply calls_cons. exists m. by rewrite call_predict.
Qed.

(** X12. A fresh predictor has defined behaviour on every sequence of calls
    with at most [INT_MAX] observations, however many predictions it
    contains; afterwards no counter exceeds the number of observations. *)
Theorem defined_within_int_range (cs : list Call)
    (Hfew : Z.of_nat (observe_calls cs) <= INT_MAX) :
  exists m,
    calls cs RoboMemory_new = Some (tt, m) /\
    consecutiveDayCount m <= Z.of_nat (observe_calls cs) /\
    forall id,
      dayCount (tally m id) <= Z.of_nat (observe_calls cs) /\
      nightCount (tally m id) <= Z.of_nat (observe_calls cs).
Proof.
  destruct (counters_at_most_calls cs RoboMemory_new 0) as (m & Hrun & Hm).
  - split; [done|]. split; [done|].
    intros id. unfold tally. simpl. by rewrite lookup_empty.
  - lia.
  - exists m. split; [done|]. rewrite Z.add_0_l in Hm.
    destruct Hm as (_ & Hc & Ht). done.
Qed.

Lemma defined_within_int_range_witness :
  exists m,
    calls [Observe 1 true; Predict 1 true; Observe 1 true] RoboMemory_new
    = Some (tt, m) /\
    consecutiveDayCount m <= 2.
Proof.
  destruct (defined_within_int_range
              [Observe 1%N true; Predict 1%N true; Observe 1%N true])
    as (m & Hrun & Hc & _).
  - vm_compute. discriminate.
  - exists m. split; [exact Hrun|exact Hc].
Defined.

(** ** Predictions leave no trace *)

Lemma calls_cons_eq (c : Call) (cs : list Call) (m : RoboMemory) :
  calls (c :: cs) m =
  match call c m with
  | Some (_, m1) => calls cs m1
  | None => None
  end.
Proof. reflexivity. Qed.

(** X13. The memory after a sequence of calls is the memory after its
    observations alone: however many predictions are made in between, and
    with whatever arguments, they do not change what is learnt, nor whether
    the behaviour is defined. *)
Theorem predictions_leave_no_trace (cs : list Call) (m : RoboMemory) :
  calls cs m = calls (observes_only cs) m.
Proof.
  revert m. induction cs as [|c cs IH]; intros m; [done|].
  destruct c as [id hint|id outcome].
  - rewrite calls_cons_eq, call_predict. apply IH.
  - simpl observes_only. rewrite !calls_cons_eq.
    destruct (call (Observe id outcome) m) as [[[] m1]|]; [apply IH|done].
Qed.

(** ** Day, day, night on one planet *)

Lemma times_observed_outcomes (id : N) (outcome : bool) (cs : list Call) :
  times_observed id outcome cs = occurrences outcome (outcomes_on id cs).
Proof.
  induction cs as [|c cs IH]; [done|].
  destruct c as [p hint|p o]; simpl; [lia|].
  destruct (decide (p = id)) as [Hp|Hp].
  - rewrite bool_decide_eq_true_2 by done. simpl. lia.
  - rewrite bool_decide_eq_false_2 by done. simpl. lia.
Qed.

(** C6. Start from a freshly constructed predictor and make any sequence of
    calls in which the observations on planet [P] are day, day, night, in
    that order.  If afterwards the streak is below 2 (it was reset) and no
    pair and triple record matches a prediction of night for [P] (no
    consensus), then the record of [P] counts 2 days against 1 night and
    [predict(P, false)] returns [true]: the strict majority decides. *)
Theorem day_day_night_majority (cs : list Call) (m : RoboMemory) (P : N)
    (Hrun : calls cs RoboMemory_new = Some (tt, m))
    (Hobserved : outcomes_on P cs = [true; true; false])
    (Hstreak : consecutiveDayCount m < 2)
    (Hnomatch : ~ consensus m P false) :
  planetObservations m !! P = Some (mkTimeStats 2 1) /\
  predictTimeOfDayOnNextPlanet P false m = Some (true, m).
Proof.
  assert (planetObservations m !! P = Some (mkTimeStats 2 1)) as Hrecord.
  { rewrite (record_calls cs RoboMemory_new m P Hrun).
    rewrite !times_observed_outcomes, Hobserved. simpl.
    unfold tally. simpl. rewrite lookup_empty. reflexivity. }
  split; [done|].
  destruct (predict_cases m P false Hstreak) as [[Hcons _]|[_ Hpredict]];
    [done|].
  rewrite Hpredict, Hrecord. reflexivity.
Qed.

Lemma day_day_night_majority_witness :
  outcomes_on 5 interleaved_calls = [true; true; false] /\
  planetObservations (memory_after interleaved_calls) !! 5%N
  = Some (mkTimeStats 2 1) /\
  predictTimeOfDayOnNextPlanet 5 false (memory_after interleaved_calls)
  = Some (true, memory_after interleaved_calls).
Proof.
  assert (outcomes_on 5 interleaved_calls = [true; true; false]) as Hobserved
    by (vm_compute; reflexivity).
  split; [exact Hobserved|].
  apply (day_day_night_majority interleaved_calls _ 5%N).
  - vm_compute. reflexivity.
  - exact Hobserved.
  - vm_compute. reflexivity.
  - intros (ll & l & Hll & Hl & _ & Hpair).
    vm_compute in Hll, Hl. injection Hll as <-. injection Hl as <-.
    vm_compute in Hpair. discriminate.
Defined.

(** The hypothesis on the pair and triple records matters: when the three
    observations on planet 5 follow one another directly, they record the
    pair (5, 5) and the triple (5, 5, 5), last as night; under the hint
    "night" there is consensus, and the prediction is night. *)
Lemma back_to_back_consensus :
  exists m,
    calls [Observe 5 true; Observe 5 true; Observe 5 false] RoboMemory_new
    = Some (tt, m) /\
    outcomes_on 5 [Observe 5 true; Observe 5 true; Observe 5 false]
    = [true; true; false] /\
    consensus m 5 false /\
    predictTimeOfDayOnNextPlanet 5 false m = Some (false, m).
Proof.
  eexists. split; [vm_compute; reflexivity|].
  split; [vm_compute; reflexivity|].
  split; [|vm_compute; reflexivity].
  exists 5%N, 5%N. repeat split; vm_compute; reflexivity.
Qed.
